(** * mcp-dashboard: the config routes and the browser-side API client

    A shallow embedding of
    - [src/server/routes/config.ts]: the Express router of the configuration
      endpoints, and
    - [src/client/src/services/api.ts]: the [fetch] wrapper of the browser,
    together with the properties the specification states about them.

    The route handlers are programs over the calls they make on the
    [ConfigManager] object; the class itself lives in
    [src/server/services/configManager.ts], so the routes are verified for
    every implementation of its interface, and the statements that depend
    on what the class does are settled on a model written from the
    specification (section [SpecManager]). *)

From Stdlib Require Import ZArith Lia.
From stdpp Require Import gmap strings list fin_maps pretty.

#[local] Set Warnings "-register-all".

Open Scope string_scope.
Open Scope list_scope.
Open Scope Z_scope.

(* ===================================================================== *)
(** * JavaScript values *)
(* ===================================================================== *)

(** The values that travel through the routes: what [JSON.parse] produces,
    plus [undefined], which a property read yields for a missing field.
    An object is the list of its own properties in insertion order, each
    key once. Numbers are kept as integers: no route computes with them. *)
Inductive json : Type :=
| JUndefined
| JNull
| JBool (b : bool)
| JNum (n : Z)
| JStr (s : string)
| JArr (items : list json)
| JObj (fields : list (string * json)).

(** The errors a handler can catch: [Error] objects, as the cast
    [(error as Error)] of the [catch] blocks takes them to be, of the three
    classes that occur here; [message] is [(error as Error).message]. A
    thrown value that is no [Error] ([throw null], a rejected string) has
    no place in this type. *)
Inductive exn : Type :=
| Error (msg : string)
| TypeError (msg : string)
| SyntaxError (msg : string).

Definition message (e : exn) : string :=
  match e with
  | Error m | TypeError m | SyntaxError m => m
  end.

(** Own-property lookup in an object literal. *)
Fixpoint assoc (k : string) (fields : list (string * json)) : json :=
  match fields with
  | [] => JUndefined
  | (k', v) :: rest => if String.eqb k k' then v else assoc k rest
  end.

(** [v.k] for the keys the two files read ([mcpServers], [message]):
    reading a property of [null] or [undefined] throws a [TypeError] (the
    text is V8's), a primitive or an array has no such property. *)
Definition get_prop (v : json) (k : string) : exn + json :=
  match v with
  | JUndefined =>
      inl (TypeError ("Cannot read properties of undefined (reading '" +:+ k +:+ "')"))
  | JNull =>
      inl (TypeError ("Cannot read properties of null (reading '" +:+ k +:+ "')"))
  | JObj fields => inr (assoc k fields)
  | JBool _ | JNum _ | JStr _ | JArr _ => inr JUndefined
  end.

(** JavaScript truthiness, as used by [||]. *)
Definition truthy (v : json) : bool :=
  match v with
  | JUndefined | JNull => false
  | JBool b => b
  | JNum n => negb (n =? 0)
  | JStr s => negb (String.eqb s "")
  | JArr _ | JObj _ => true
  end.

(** [a || b]. *)
Definition js_or (a b : json) : json := if truthy a then a else b.

(** Whether an object has an own property of this name. *)
Fixpoint has_key (k : string) (fields : list (string * json)) : bool :=
  match fields with
  | [] => false
  | (k', _) :: rest => String.eqb k k' || has_key k rest
  end.

(** [String(v)], the conversion [new Error(v)] applies to its argument.
    An object is converted by its [toString]: the inherited one gives
    ["[object Object]"], while an own property of that name, which in a
    parsed value is never a function, leaves no way to a primitive and the
    conversion throws. An array joins the conversions of its elements,
    [null] and [undefined] counting as empty. A number prints as its
    digits, which is what JavaScript prints for the integers up to
    2^53 - 1 in size (see [safe_numbers]). *)
Fixpoint to_string (v : json) : exn + string :=
  match v with
  | JUndefined => inr "undefined"
  | JNull => inr "null"
  | JBool true => inr "true"
  | JBool false => inr "false"
  | JNum n => inr (pretty n)
  | JStr s => inr s
  | JArr items =>
      (fix join (l : list json) : exn + string :=
         match l with
         | [] => inr ""
         | x :: rest =>
             match match x with
                   | JUndefined | JNull => inr ""
                   | _ => to_string x
                   end with
             | inl e => inl e
             | inr here =>
                 match rest with
                 | [] => inr here
                 | _ :: _ =>
                     match join rest with
                     | inl e => inl e
                     | inr tail => inr (here +:+ "," +:+ tail)
                     end
                 end
             end
         end) items
  | JObj fields =>
      if has_key "toString" fields
      then inl (TypeError "Cannot convert object to primitive value")
      else inr "[object Object]"
  end.

(** The numbers [to_string] reaches in a value are integers that
    JavaScript holds exactly and prints digit by digit. *)
Fixpoint safe_numbers (v : json) : bool :=
  match v with
  | JNum n => Z.abs n <=? 9007199254740991
  | JArr items => forallb safe_numbers items
  | _ => true
  end.

(** [true] on the values [JSON.parse] can return: no [undefined] inside. *)
Fixpoint is_json (v : json) : bool :=
  match v with
  | JUndefined => false
  | JNull | JBool _ | JNum _ | JStr _ => true
  | JArr items => forallb is_json items
  | JObj fields =>
      (fix all (l : list (string * json)) : bool :=
         match l with
         | [] => true
         | (_, x) :: rest => is_json x && all rest
         end) fields
  end.

(** What [JSON.parse (JSON.stringify v)] gives for a defined [v]: an
    [undefined] property is dropped, an [undefined] array slot becomes
    [null]. *)
Fixpoint jsonify (v : json) : json :=
  match v with
  | JArr items =>
      JArr (map (fun x => match x with
                          | JUndefined => JNull
                          | _ => jsonify x
                          end) items)
  | JObj fields =>
      JObj ((fix keep (l : list (string * json)) : list (string * json) :=
               match l with
               | [] => []
               | (k, JUndefined) :: rest => keep rest
               | (k, x) :: rest => (k, jsonify x) :: keep rest
               end) fields)
  | _ => v
  end.

(** [JSON.stringify v], as the document its text denotes; [undefined] has
    no JSON text. *)
Definition JSON_stringify (v : json) : option json :=
  match v with
  | JUndefined => None
  | _ => Some (jsonify v)
  end.

(** Induction on values, with the hypothesis available below arrays and
    objects. *)
Section JsonInduction.
Variable P : json -> Prop.
Hypothesis case_undefined : P JUndefined.
Hypothesis case_null : P JNull.
Hypothesis case_bool : ∀ b, P (JBool b).
Hypothesis case_num : ∀ n, P (JNum n).
Hypothesis case_str : ∀ s, P (JStr s).
Hypothesis case_arr : ∀ items, Forall P items -> P (JArr items).
Hypothesis case_obj : ∀ fields, Forall (fun kv => P kv.2) fields -> P (JObj fields).

Fixpoint json_nested_ind (v : json) : P v :=
  match v with
  | JUndefined => case_undefined
  | JNull => case_null
  | JBool b => case_bool b
  | JNum n => case_num n
  | JStr s => case_str s
  | JArr items =>
      case_arr items
        ((fix all (l : list json) : Forall P l :=
            match l with
            | [] => List.Forall_nil P
            | x :: rest => List.Forall_cons P x rest (json_nested_ind x) (all rest)
            end) items)
  | JObj fields =>
      case_obj fields
        ((fix all (l : list (string * json)) : Forall (fun kv => P kv.2) l :=
            match l with
            | [] => List.Forall_nil _
            | (k, x) :: rest =>
                List.Forall_cons (fun kv => P kv.2) (k, x) rest
                  (json_nested_ind x) (all rest)
            end) fields)
  end.
End JsonInduction.

(* ===================================================================== *)
(** * Calls on the ConfigManager and the programs that make them *)
(* ===================================================================== *)

(** A reference to a [ConfigManager] object. *)
Definition obj : Type := nat.

(** The value [configManager.validateConfig] returns. *)
Record ValidationResult : Type := {
  valid : bool;
  errors : json
}.

(** The calls [routes/config.ts] makes on the class: its constructor and
    the seven methods, each with its receiver and arguments. *)
Inductive call : Type :=
| New
| LoadConfig (this : obj)
| LoadFullConfig (this : obj)
| ValidateConfig (this : obj) (config : json)
| SaveConfig (this : obj) (config : json)
| GetActiveConfigInfo (this : obj)
| GetConfigPath (this : obj)
| ConfigExists (this : obj).

(** The type of what a call evaluates (or, for the [async] methods,
    resolves) to. *)
Definition result (c : call) : Type :=
  match c with
  | New => obj
  | LoadConfig _ | LoadFullConfig _ | GetActiveConfigInfo _ => json
  | ValidateConfig _ _ => ValidationResult
  | SaveConfig _ _ => unit
  | GetConfigPath _ => string
  | ConfigExists _ => bool
  end.

(** A program either returns, throws, or makes a call and goes on with its
    outcome: the value, or the error the call threw (rejected with). *)
Inductive prog (A : Type) : Type :=
| Ret (a : A)
| Throw (e : exn)
| Call (c : call) (k : exn + result c -> prog A).

Arguments Ret {A} a.
Arguments Throw {A} e.
Arguments Call {A} c k.

Fixpoint bind {A B : Type} (p : prog A) (f : A -> prog B) : prog B :=
  match p with
  | Ret a => f a
  | Throw e => Throw e
  | Call c k => Call c (fun r => bind (k r) f)
  end.

#[global] Instance prog_ret : MRet prog := @Ret.
#[global] Instance prog_bind : MBind prog := fun A B f p => bind p f.

(** [await configManager.m(...)] (or the plain call, for the synchronous
    ones): an error of the callee propagates. *)
Definition invoke (c : call) : prog (result c) :=
  Call c (fun r => match r with
                   | inl e => Throw e
                   | inr x => Ret x
                   end).

(** A synchronous step of the handler itself that may throw. *)
Definition lift {A : Type} (r : exn + A) : prog A :=
  match r with
  | inl e => Throw e
  | inr a => Ret a
  end.

(** [try { body } catch (error) { handler }]. *)
Fixpoint try_catch {A : Type} (body : prog A) (handler : exn -> prog A) : prog A :=
  match body with
  | Ret a => Ret a
  | Throw e => handler e
  | Call c k => Call c (fun r => try_catch (k r) handler)
  end.

(** ** Running a program against an implementation of the class *)

(** How a call ended, as far as a handler can tell. *)
Inductive outcome : Type :=
| Returned
| Threw (e : exn).

Definition outcome_of {A : Type} (r : exn + A) : outcome :=
  match r with
  | inl e => Threw e
  | inr _ => Returned
  end.

(** The calls made while a program ran, in order. *)
Definition trace : Type := list (call * outcome).

(** An implementation of the ConfigManager interface over a world [W] (the
    file system, the clock, the objects' own fields). Every method may
    throw and, [validateConfig] apart, change the world.

    Modelled from the spec: [validateConfig], whose class
    [services/configManager.ts] is not part of the sources, is the
    "schema check" of sections 1 and 2; the route calls it without [await]
    and it may read the world but leaves it as it is. *)
Record ConfigManagerClass (W : Type) : Type := {
  construct : W -> (exn + obj) * W;
  loadConfig : obj -> W -> (exn + json) * W;
  loadFullConfig : obj -> W -> (exn + json) * W;
  validateConfig : obj -> json -> W -> exn + ValidationResult;
  saveConfig : obj -> json -> W -> (exn + unit) * W;
  getActiveConfigInfo : obj -> W -> (exn + json) * W;
  getConfigPath : obj -> W -> (exn + string) * W;
  configExists : obj -> W -> (exn + bool) * W
}.

Arguments construct {W} _ _.
Arguments loadConfig {W} _ _ _.
Arguments loadFullConfig {W} _ _ _.
Arguments validateConfig {W} _ _ _ _.
Arguments saveConfig {W} _ _ _ _.
Arguments getActiveConfigInfo {W} _ _ _.
Arguments getConfigPath {W} _ _ _.
Arguments configExists {W} _ _ _.

Section Run.
Context {W : Type} (cls : ConfigManagerClass W).

(** One call, dispatched to the implementation. *)
Definition perform (c : call) : W -> (exn + result c) * W :=
  match c with
  | New => construct cls
  | LoadConfig this => loadConfig cls this
  | LoadFullConfig this => loadFullConfig cls this
  | ValidateConfig this config => fun w => (validateConfig cls this config w, w)
  | SaveConfig this config => saveConfig cls this config
  | GetActiveConfigInfo this => getActiveConfigInfo cls this
  | GetConfigPath this => getConfigPath cls this
  | ConfigExists this => configExists cls this
  end.

(** The result of a program, the world it leaves and the calls it made. *)
Fixpoint run {A : Type} (p : prog A) (w : W) : (exn + A) * W * trace :=
  match p with
  | Ret a => (inr a, w, [])
  | Throw e => (inl e, w, [])
  | Call c k =>
      let '(r, w1) := perform c w in
      let '(res, w2, tr) := run (k r) w1 in
      (res, w2, (c, outcome_of r) :: tr)
  end.
End Run.

(** Projections of a run. *)
Definition answer {A W : Type} (x : (exn + A) * W * trace) : exn + A := x.1.1.
Definition world_after {A W : Type} (x : (exn + A) * W * trace) : W := x.1.2.
Definition calls {A W : Type} (x : (exn + A) * W * trace) : trace := x.2.

(** The methods that were called, without how they ended. *)
Definition called {A W : Type} (x : (exn + A) * W * trace) : list call := (calls x).*1.

(* ===================================================================== *)
(** * src/server/routes/config.ts *)
(* ===================================================================== *)

(** What a handler sees of the request ([req.body], after the JSON body
    parser) and what it sends: the status code and the value handed to
    [res.json]. *)
Record Request : Type := { req_body : json }.

Record Response : Type := {
  status : Z;
  body : json
}.

(** [res.json(v)]: the status code is the default, 200. *)
Definition res_json (v : json) : Response := {| status := 200; body := v |}.

(** [res.status(code).json(v)]. *)
Definition res_status_json (code : Z) (v : json) : Response :=
  {| status := code; body := v |}.

(** The [catch] block all five handlers share but for the label:
    [res.status(500).json({ success: false, message: `${label}${error.message}` })].
    The [console.error] before it only writes to the log. *)
Definition internal_error (label : string) (error : exn) : Response :=
  res_status_json 500
    (JObj [("success", JBool false);
           ("message", JStr (label +:+ message error))]).

(** [router.get("/config", ...)], lines 14-25. *)
Definition get_config (configManager : obj) (_req : Request) : prog Response :=
  try_catch
    (config ← invoke (LoadConfig configManager);
     Ret (res_json config))
    (fun error => Ret (internal_error "Failed to load config: " error)).

(** [router.get("/config/full", ...)], lines 28-39. *)
Definition get_config_full (configManager : obj) (_req : Request) : prog Response :=
  try_catch
    (config ← invoke (LoadFullConfig configManager);
     Ret (res_json config))
    (fun error => Ret (internal_error "Failed to load full config: " error)).

(** [router.post("/config", ...)], lines 41-68. *)
Definition post_config (configManager : obj) (req : Request) : prog Response :=
  try_catch
    (let config := req_body req in
     mcpServers ← lift (get_prop config "mcpServers");
     validationResult ←
       invoke (ValidateConfig configManager (JObj [("mcpServers", mcpServers)]));
     if negb (valid validationResult) then
       Ret (res_status_json 400
              (JObj [("success", JBool false);
                     ("message", JStr "Invalid configuration");
                     ("data", JObj [("errors", errors validationResult)])]))
     else
       _ ← invoke (SaveConfig configManager config);
       Ret (res_json
              (JObj [("success", JBool true);
                     ("message", JStr "Configuration saved successfully")])))
    (fun error => Ret (internal_error "Failed to save config: " error)).

(** [router.get("/config/info", ...)], lines 71-82. *)
Definition get_config_info (configManager : obj) (_req : Request) : prog Response :=
  try_catch
    (info ← invoke (GetActiveConfigInfo configManager);
     Ret (res_json info))
    (fun error => Ret (internal_error "Failed to get config info: " error)).

(** [router.get("/config/path", ...)], lines 85-101. *)
Definition get_config_path (configManager : obj) (_req : Request) : prog Response :=
  try_catch
    (path ← invoke (GetConfigPath configManager);
     exists_ ← invoke (ConfigExists configManager);
     Ret (res_json (JObj [("path", JStr path); ("exists", JBool exists_)])))
    (fun error => Ret (internal_error "Failed to get config path: " error)).

Inductive Method : Type := GET | POST | HEAD.

#[global] Instance Method_eq_dec : EqDecision Method.
Proof. solve_decision. Defined.

Definition Handler : Type := Request -> prog Response.

(** The router after the five registrations, in source order. *)
Definition router (configManager : obj) : list (Method * string * Handler) :=
  [ (GET, "/config", get_config configManager);
    (GET, "/config/full", get_config_full configManager);
    (POST, "/config", post_config configManager);
    (GET, "/config/info", get_config_info configManager);
    (GET, "/config/path", get_config_path configManager) ].

(** Evaluating the module, lines 11-12 and the registrations: the one
    [new ConfigManager()] whose result every handler closes over. *)
Definition load_module : prog (list (Method * string * Handler)) :=
  configManager ← invoke New;
  Ret (router configManager).

(** A route registered with [router.get] also answers HEAD requests;
    otherwise the methods have to agree. *)
Definition handles (registered requested : Method) : bool :=
  match registered, requested with
  | GET, GET | GET, HEAD | POST, POST | HEAD, HEAD => true
  | _, _ => false
  end.

(** Letters compare without case. *)
Definition lower (c : Ascii.ascii) : Ascii.ascii :=
  let n := Ascii.nat_of_ascii c in
  if ((65 <=? n) && (n <=? 90))%nat then Ascii.ascii_of_nat (n + 32) else c.

Fixpoint lowercase (s : string) : string :=
  match s with
  | EmptyString => EmptyString
  | String c rest => String (lower c) (lowercase rest)
  end.

(** How a router with the default options ([express.Router()], line 11)
    compares a registered literal path with the path of a request:
    without case, and with one trailing slash allowed. *)
Definition path_matches (registered requested : string) : bool :=
  String.eqb (lowercase registered) (lowercase requested)
  || String.eqb (lowercase registered +:+ "/") (lowercase requested).

(** The first route registered that answers this method and path, if
    any. *)
Fixpoint find_route (routes : list (Method * string * Handler))
    (m : Method) (path : string) : option Handler :=
  match routes with
  | [] => None
  | (m', path', h) :: rest =>
      if handles m' m && path_matches path' path then Some h
      else find_route rest m path
  end.

(** Serving a request on the loaded module runs the handler registered for
    it (a request no route matches leaves the router untouched). *)
Definition serve (routes : list (Method * string * Handler))
    (m : Method) (path : string) (req : Request) : prog (option Response) :=
  match find_route routes m path with
  | Some h => r ← h req; Ret (Some r)
  | None => Ret None
  end.

(** Requests served one after the other. *)
Fixpoint serve_all (routes : list (Method * string * Handler))
    (reqs : list (Method * string * Request)) : prog (list (option Response)) :=
  match reqs with
  | [] => Ret []
  | (m, path, req) :: rest =>
      r ← serve routes m path req;
      rs ← serve_all routes rest;
      Ret (r :: rs)
  end.

(** [app.use(prefix, routes)]: the routes answer under the prefix. *)
Definition mount (prefix : string) (routes : list (Method * string * Handler))
    : list (Method * string * Handler) :=
  map (fun '(m, path, h) => (m, prefix +:+ path, h)) routes.

(** Modelled from the spec: the server entry point, which is not part of
    the sources, mounts the router under [/api] (section 6 lists the
    endpoints as [/api/config], [/api/config/full], ...). *)
Definition app (configManager : obj) : list (Method * string * Handler) :=
  mount "/api" (router configManager).


(* ===================================================================== *)
(** * src/client/src/services/api.ts *)
(* ===================================================================== *)

(** What [handleResponse] reads of a [fetch] response: the status code and
    the outcome of [response.json()], which is the parsed body or, when the
    body is not JSON, the error the promise rejects with. *)
Record FetchResponse : Type := {
  resp_status : Z;
  resp_json : exn + json
}.

(** [response.ok]: the status is in the range 200-299. *)
Definition resp_ok (response : FetchResponse) : bool :=
  (200 <=? resp_status response) && (resp_status response <=? 299).

(** [handleResponse], lines 13-21. *)
Definition handleResponse (response : FetchResponse) : exn + json :=
  if negb (resp_ok response) then
    let error := match resp_json response with
                 | inr v => v
                 | inl _ => JObj [("message", JStr "Request failed")]
                 end in
    match get_prop error "message" with
    | inl e => inl e
    | inr m =>
        match to_string (js_or m (JStr "Request failed")) with
        | inl e => inl e
        | inr text => inl (Error text)
        end
    end
  else resp_json response.

(** The arguments of a [fetch] call. *)
Record FetchRequest : Type := {
  url : string;
  http_method : Method;
  headers : list (string * string);
  payload : option json
}.

Module api.
Section WithFetch.
(** The network and the URI escaping of the browser. *)
Variable fetch : FetchRequest -> exn + FetchResponse.
Variable encodeURIComponent : string -> string.

Definition API_BASE : string := "/api".

(** [fetch(url)] with no options is a GET without a body. *)
Definition plain (u : string) : FetchRequest :=
  {| url := u; http_method := GET; headers := []; payload := None |}.

(** [const response = await fetch(...); return handleResponse(response)]. *)
Definition request (r : FetchRequest) : exn + json :=
  match fetch r with
  | inl e => inl e
  | inr response => handleResponse response
  end.

Definition getConfig : exn + json :=
  request (plain (API_BASE +:+ "/config")).

Definition getFullConfig : exn + json :=
  request (plain (API_BASE +:+ "/config/full")).

Definition saveConfig (config : json) : exn + json :=
  request {| url := API_BASE +:+ "/config";
             http_method := POST;
             headers := [("Content-Type", "application/json")];
             payload := JSON_stringify config |}.

Definition getConfigPath : exn + json :=
  request (plain (API_BASE +:+ "/config/path")).

Definition getConfigInfo : exn + json :=
  request (plain (API_BASE +:+ "/config/info")).

Definition getPresets : exn + json :=
  request (plain (API_BASE +:+ "/presets")).

Definition getPresetById (id : string) : exn + json :=
  request (plain (API_BASE +:+ "/presets/" +:+ id)).

Definition searchPresets (query : string) : exn + json :=
  request (plain (API_BASE +:+ "/presets/search/" +:+ encodeURIComponent query)).
End WithFetch.

(** The method and URL of the five calls that go to the config router. *)
Definition config_endpoints : list (Method * string) :=
  [ (GET, API_BASE +:+ "/config");
    (GET, API_BASE +:+ "/config/full");
    (POST, API_BASE +:+ "/config");
    (GET, API_BASE +:+ "/config/path");
    (GET, API_BASE +:+ "/config/info") ].
End api.

(* ===================================================================== *)
(** * The ConfigManager of the specification *)
(* ===================================================================== *)

(** What a file holds: a JSON document, or text that does not parse. *)
Inductive content : Type :=
| Doc (document : json)
| Raw (text : string).

(** The world of the server: the files by path, the platform's location of
    the configuration file, the clock as the time stamp a backup made now
    would carry, and the next free object reference. *)
Record World : Type := {
  files : gmap string content;
  config_path : string;
  now : string;
  fresh : obj
}.

Definition with_files (w : World) (fs : gmap string content) : World :=
  {| files := fs; config_path := config_path w; now := now w; fresh := fresh w |}.

(** [<file>.backup.<timestamp>], section 6. *)
Definition backup_name (file timestamp : string) : string :=
  file +:+ ".backup." +:+ timestamp.

(** Modelled from the spec: the "file copy" half of saving (sections 2
    and 3), from the absent [services/configManager.ts]: when there is a
    prior file, its content is copied to the backup name of the moment. *)
Definition backup (w : World) : World :=
  match files w !! config_path w with
  | Some old => with_files w (<[backup_name (config_path w) (now w) := old]> (files w))
  | None => w
  end.

(** Modelled from the spec: the "then-write" half of saving, from the
    absent [services/configManager.ts]: the configuration file is replaced
    by the document, wholesale. *)
Definition write_config (document : json) (w : World) : World :=
  with_files w (<[config_path w := Doc document]> (files w)).

(** Modelled from the spec: reading the configuration file ("read JSON",
    section 1), from the absent [services/configManager.ts]; a missing or
    unparsable file is an I/O failure (section 7). *)
Definition read_config (w : World) : exn + json :=
  match files w !! config_path w with
  | Some (Doc document) => inr document
  | Some (Raw text) =>
      inl (SyntaxError ("Unexpected token in JSON: " +:+ text))
  | None =>
      inl (Error ("ENOENT: no such file or directory, open '"
                  +:+ config_path w +:+ "'"))
  end.

Section SpecManager.
(** The schema library and the description of the platform's locations
    are left open. *)
Variable schema : json -> ValidationResult.
Variable describe : World -> json.

(** Modelled from the spec: the class of [services/configManager.ts],
    which is not part of the sources: "read JSON, validate shape with a
    schema library, write JSON with a timestamped backup copy, detect
    OS-specific file locations" (section 1); an object has no fields of
    its own that a method changes (section 5). *)
Definition manager : ConfigManagerClass World := {|
  construct := fun w =>
    (inr (fresh w),
     {| files := files w; config_path := config_path w; now := now w;
        fresh := S (fresh w) |});
  loadConfig := fun _ w => (read_config w, w);
  loadFullConfig := fun _ w => (read_config w, w);
  validateConfig := fun _ config _ => inr (schema config);
  saveConfig := fun _ config w =>
    match JSON_stringify config with
    | None =>
        (inl (TypeError "The 'data' argument must be of type string"), w)
    | Some document => (inr tt, write_config document (backup w))
    end;
  getActiveConfigInfo := fun _ w => (inr (describe w), w);
  getConfigPath := fun _ w => (inr (config_path w), w);
  configExists := fun _ w =>
    (inr (bool_decide (is_Some (files w !! config_path w))), w)
|}.

(** How the world moves: the server answers a request, or time passes. *)
Inductive evolves (configManager : obj) : World -> World -> Prop :=
| evolves_refl w : evolves configManager w w
| evolves_request w w' m path req :
    evolves configManager w w' ->
    evolves configManager w
      (world_after (run manager (serve (router configManager) m path req) w'))
| evolves_clock w w' timestamp :
    evolves configManager w w' ->
    evolves configManager w
      {| files := files w'; config_path := config_path w';
         now := timestamp; fresh := fresh w' |}.
End SpecManager.

(** ** A concrete schema *)

Definition is_string (v : json) : bool :=
  match v with JStr _ => true | _ => false end.

Definition is_bool (v : json) : bool :=
  match v with JBool _ => true | _ => false end.

Definition is_string_array (v : json) : bool :=
  match v with JArr items => forallb is_string items | _ => false end.

Definition is_string_map (v : json) : bool :=
  match v with JObj fields => forallb (fun kv => is_string kv.2) fields | _ => false end.

(** An optional field: absent, or of the right shape. *)
Definition optional (check : json -> bool) (v : json) : bool :=
  match v with JUndefined => true | _ => check v end.

(** Modelled from the spec: the ServerConfig shape of section 3,
    [{ command: string, args?: string[], env?: map<string,string>,
    disabled?: bool }]. *)
Definition is_server_config (v : json) : bool :=
  match v with
  | JObj fields =>
      is_string (assoc "command" fields)
      && optional is_string_array (assoc "args" fields)
      && optional is_string_map (assoc "env" fields)
      && optional is_bool (assoc "disabled" fields)
  | _ => false
  end.

(** Modelled from the spec: the MCPConfig shape of section 3,
    [{ mcpServers: map<name, ServerConfig> }], as a validator; the error
    list names the entries that do not fit. *)
Definition shape_check (config : json) : ValidationResult :=
  match assoc "mcpServers" match config with JObj fields => fields | _ => [] end with
  | JObj servers =>
      let bad := filter (fun kv => negb (is_server_config kv.2)) servers in
      {| valid := match bad with [] => true | _ :: _ => false end;
         errors := JArr (map (fun kv => JStr kv.1) bad) |}
  | _ => {| valid := false; errors := JArr [JStr "mcpServers"] |}
  end.

(* ===================================================================== *)
(** * Vocabulary of the statements *)
(* ===================================================================== *)

(** The object a call is made on; the constructor has none. *)
Definition receiver (c : call) : option obj :=
  match c with
  | New => None
  | LoadConfig this | LoadFullConfig this | ValidateConfig this _
  | SaveConfig this _ | GetActiveConfigInfo this | GetConfigPath this
  | ConfigExists this => Some this
  end.

Definition is_save (c : call) : bool :=
  match c with SaveConfig _ _ => true | _ => false end.

(** A 500 response whose body has [success: false] and a message that ends
    with the message of [e]. *)
Definition is_internal_error (e : exn) (r : Response) : Prop :=
  status r = 500 ∧
  ∃ fields label,
    body r = JObj fields ∧
    assoc "success" fields = JBool false ∧
    assoc "message" fields = JStr (label +:+ message e).

(** The body of the 400 response of [POST /config]. *)
Definition invalid_configuration (errs : json) : json :=
  JObj [("success", JBool false);
        ("message", JStr "Invalid configuration");
        ("data", JObj [("errors", errs)])].

(** The body of the success response of [POST /config]. *)
Definition saved_successfully : json :=
  JObj [("success", JBool true);
        ("message", JStr "Configuration saved successfully")].

(** Serving this request creates a service object. *)
Definition instantiates_service {W : Type} (cls : ConfigManagerClass W)
    (routes : list (Method * string * Handler))
    (m : Method) (path : string) (req : Request) (w : W) : Prop :=
  New ∈ called (run cls (serve routes m path req) w).

(** What the fallback of [handleResponse] gives: an [Error] with the text
    ["Request failed"]. *)
Definition falls_back (response : FetchResponse) : Prop :=
  handleResponse response = inl (Error "Request failed").

(** ** Sample data *)

Definition sample_path : string :=
  "/home/user/.config/Claude/claude_desktop_config.json".

Definition sample_servers : json :=
  JObj [("files", JObj [("command", JStr "npx");
                        ("args", JArr [JStr "-y"; JStr "server-filesystem"])])].

Definition sample_config : json := JObj [("mcpServers", sample_servers)].

(** The edit of the samples: a top-level field of another tool is set,
    the servers are left alone. *)
Definition set_theme (config : json) : json :=
  match config with
  | JObj fields => JObj (fields ++ [("theme", JStr "dark")])
  | _ => config
  end.

Definition edited_config : json := set_theme sample_config.

(** A server entry without a command. *)
Definition broken_servers : json :=
  JObj [("files", JObj [("args", JArr [JStr "-y"])])].

Definition broken_config : json := JObj [("mcpServers", broken_servers)].

Definition empty_disk : World :=
  {| files := ∅; config_path := sample_path;
     now := "1700000000000"; fresh := 0%nat |}.

Definition sample_disk : World :=
  with_files empty_disk {[ sample_path := Doc sample_config ]}.

Definition missing_file : exn :=
  Error ("ENOENT: no such file or directory, open '" +:+ sample_path +:+ "'").

Definition no_info : World -> json := fun _ => JObj [].

Definition sample_manager : ConfigManagerClass World := manager shape_check no_info.

(** An error response whose body is the JSON text [null]. *)
Definition null_error_response : FetchResponse :=
  {| resp_status := 500; resp_json := inr JNull |}.

(** ** Between the two files *)

Definition is_validate (c : call) : bool :=
  match c with ValidateConfig _ _ => true | _ => false end.

(** What [fetch] hands the client for an answer of the server: the status
    code and, as the outcome of [response.json()], the parse of the text
    [res.json] wrote. [res.json(undefined)] writes no text, and no text
    does not parse. *)
Definition deliver (r : Response) : FetchResponse :=
  {| resp_status := status r;
     resp_json := match JSON_stringify (body r) with
                  | Some document => inr document
                  | None => inl (SyntaxError "Unexpected end of JSON input")
                  end |}.

(** More sample data: an error answer with a message, one whose body is
    an HTML page, and a ConfigManager that cannot be constructed. *)
Definition not_found_response : FetchResponse :=
  {| resp_status := 404;
     resp_json := inr (JObj [("message", JStr "Preset not found")]) |}.

Definition gateway_response : FetchResponse :=
  {| resp_status := 502;
     resp_json := inl (SyntaxError "Unexpected token '<'") |}.

Definition no_home : exn := Error "Unsupported platform".

Definition unconstructible : ConfigManagerClass World :=
  {| construct := fun w => (inl no_home, w);
     loadConfig := loadConfig sample_manager;
     loadFullConfig := loadFullConfig sample_manager;
     validateConfig := validateConfig sample_manager;
     saveConfig := saveConfig sample_manager;
     getActiveConfigInfo := getActiveConfigInfo sample_manager;
     getConfigPath := getConfigPath sample_manager;
     configExists := configExists sample_manager |}.

(** A ConfigManager that cannot find the platform's location. *)
Definition lost : ConfigManagerClass World :=
  {| construct := construct sample_manager;
     loadConfig := loadConfig sample_manager;
     loadFullConfig := loadFullConfig sample_manager;
     validateConfig := validateConfig sample_manager;
     saveConfig := saveConfig sample_manager;
     getActiveConfigInfo := getActiveConfigInfo sample_manager;
     getConfigPath := fun _ w => (inl no_home, w);
     configExists := configExists sample_manager |}.

(* ===================================================================== *)
(** * Running programs: general facts *)
(* ===================================================================== *)

Section RunFacts.
Context {W : Type} (cls : ConfigManagerClass W).

(** A sequence runs its first part, then the rest on what is left. *)
Lemma run_bind {A B : Type} (p : prog A) (f : A -> prog B) (w : W) :
  run cls (bind p f) w =
    match run cls p w with
    | (inl e, w1, tr) => (inl e, w1, tr)
    | (inr a, w1, tr) =>
        let '(r, w2, tr') := run cls (f a) w1 in (r, w2, tr ++ tr')
    end.
Proof.
  revert w. induction p as [a | e | c k IH]; intros w; cbn.
  - by destruct (run cls (f a) w) as [[r w2] tr'].
  - done.
  - destruct (perform cls c w) as [r w1]. rewrite IH.
    destruct (run cls (k r) w1) as [[[e | a] w2] tr]; [done |].
    by destruct (run cls (f a) w2) as [[r' w3] tr'].
Qed.

(** A [try] block whose [catch] returns always returns. *)
Lemma run_try_catch {A : Type} (p : prog A) (h : exn -> A) (w : W) :
  run cls (try_catch p (fun e => Ret (h e))) w =
    match run cls p w with
    | (inl e, w1, tr) => (inr (h e), w1, tr)
    | (inr a, w1, tr) => (inr a, w1, tr)
    end.
Proof.
  revert w. induction p as [a | e | c k IH]; intros w; cbn; [done | done |].
  destruct (perform cls c w) as [r w1]. rewrite IH.
  by destruct (run cls (k r) w1) as [[[e | a] w2] tr].
Qed.
End RunFacts.

(* ===================================================================== *)
(** * The routes, for every implementation of the ConfigManager *)
(* ===================================================================== *)

Section Routes.
Context {W : Type} (cls : ConfigManagerClass W).

(** C9. A [POST /config] whose body is [null] is answered with the
    HTTP 500 of the [catch] block, carrying the [TypeError] of the
    property read; no method of the ConfigManager is called, so
    validation does not run and there is no 400. *)
Theorem post_config_null_body (configManager : obj) (w : W) :
  let r := run cls (post_config configManager {| req_body := JNull |}) w in
  ∃ resp,
    answer r = inr resp
    ∧ status resp = 500
    ∧ resp = internal_error "Failed to save config: "
               (TypeError "Cannot read properties of null (reading 'mcpServers')")
    ∧ calls r = []
    ∧ world_after r = w.
Proof. by eexists. Qed.

(** C1. When the validator rejects the [mcpServers] of the body,
    [POST /config] answers 400 with the validator's error list, its only
    call is the validation (so [saveConfig] is not called), and the world,
    with the configuration file in it, is as before. *)
Theorem post_config_rejects_invalid
    (configManager : obj) (req : Request) (w : W)
    (servers : json) (verdict : ValidationResult) :
  get_prop (req_body req) "mcpServers" = inr servers ->
  validateConfig cls configManager (JObj [("mcpServers", servers)]) w = inr verdict ->
  valid verdict = false ->
  let r := run cls (post_config configManager req) w in
  answer r = inr (res_status_json 400 (invalid_configuration (errors verdict)))
  ∧ called r = [ValidateConfig configManager (JObj [("mcpServers", servers)])]
  ∧ (∀ c, c ∈ called r -> is_save c = false)
  ∧ world_after r = w.
Proof.
  intros Hservers Hverdict Hinvalid. unfold post_config.
  rewrite Hservers. cbn. rewrite Hverdict. cbn. rewrite Hinvalid. cbn.
  repeat split. intros c Hc. apply list_elem_of_singleton in Hc. by subst c.
Qed.

(** C6. Whichever of the five routes serves a request, if a call on the
    ConfigManager throws while it does, the answer is HTTP 500 with
    [success: false] and a message that ends with the message of the
    error thrown. *)
Theorem config_routes_answer_500
    (configManager : obj) (entry : Method * string * Handler)
    (req : Request) (w : W) (c : call) (e : exn) :
  entry ∈ router configManager ->
  (c, Threw e) ∈ calls (run cls (entry.2 req) w) ->
  ∃ resp,
    answer (run cls (entry.2 req) w) = inr resp ∧ is_internal_error e resp.
Proof.
  intros Hentry. unfold router in Hentry.
  repeat (apply elem_of_cons in Hentry as [-> | Hentry]);
    [.. | by apply elem_of_nil in Hentry]; cbn.
  - destruct (loadConfig cls configManager w) as [[e1 | v] w1]; cbn;
      intros Hc; apply list_elem_of_singleton in Hc; [| done].
    injection Hc as _ <-. eexists. split; [done |].
    split; [done |]. by eexists _, _.
  - destruct (loadFullConfig cls configManager w) as [[e1 | v] w1]; cbn;
      intros Hc; apply list_elem_of_singleton in Hc; [| done].
    injection Hc as _ <-. eexists. split; [done |].
    split; [done |]. by eexists _, _.
  - unfold post_config.
    destruct (get_prop (req_body req) "mcpServers") as [e0 | servers]; cbn.
    { intros Hc. by apply elem_of_nil in Hc. }
    destruct (validateConfig cls configManager _ w) as [e1 | verdict]; cbn.
    { intros Hc; apply list_elem_of_singleton in Hc.
      injection Hc as _ <-. eexists. split; [done |].
      split; [done |]. by eexists _, _. }
    destruct (valid verdict); cbn.
    + destruct (saveConfig cls configManager (req_body req) w) as [[e2 | []] w2]; cbn;
        intros Hc; apply elem_of_cons in Hc as [Hc | Hc]; try done;
        apply list_elem_of_singleton in Hc; [| done].
      injection Hc as _ <-. eexists. split; [done |].
      split; [done |]. by eexists _, _.
    + intros Hc; by apply list_elem_of_singleton in Hc.
  - destruct (getActiveConfigInfo cls configManager w) as [[e1 | v] w1]; cbn;
      intros Hc; apply list_elem_of_singleton in Hc; [| done].
    injection Hc as _ <-. eexists. split; [done |].
    split; [done |]. by eexists _, _.
  - destruct (getConfigPath cls configManager w) as [[e1 | path] w1]; cbn.
    { intros Hc; apply list_elem_of_singleton in Hc.
      injection Hc as _ <-. eexists. split; [done |].
      split; [done |]. by eexists _, _. }
    destruct (configExists cls configManager w1) as [[e2 | b] w2]; cbn;
      intros Hc; apply elem_of_cons in Hc as [Hc | Hc]; try done;
      apply list_elem_of_singleton in Hc; [| done].
    injection Hc as _ <-. eexists. split; [done |].
    split; [done |]. by eexists _, _.
Qed.

(** C7. The router registers exactly five routes, [GET /config],
    [GET /config/full], [POST /config], [GET /config/info] and
    [GET /config/path]; mounted under [/api] they are the five endpoints
    the client calls; and the handler registered for [GET /config/path],
    in the router and under the mount alike, answers with the object
    [{ path, exists }] when both of its calls return. *)
Theorem config_router_routes (configManager : obj) :
  (router configManager).*1 =
    [(GET, "/config"); (GET, "/config/full"); (POST, "/config");
     (GET, "/config/info"); (GET, "/config/path")]
  ∧ (app configManager).*1 =
    [(GET, "/api/config"); (GET, "/api/config/full"); (POST, "/api/config");
     (GET, "/api/config/info"); (GET, "/api/config/path")]
  ∧ (∀ endpoint, endpoint ∈ api.config_endpoints <-> endpoint ∈ (app configManager).*1)
  ∧ (∀ (h : Handler) (req : Request) (w w1 w2 : W) (path : string) (found : bool),
       (GET, "/config/path", h) ∈ router configManager
       ∨ (GET, "/api/config/path", h) ∈ app configManager ->
       getConfigPath cls configManager w = (inr path, w1) ->
       configExists cls configManager w1 = (inr found, w2) ->
       run cls (h req) w =
         (inr (res_json (JObj [("path", JStr path); ("exists", JBool found)])),
          w2,
          [(GetConfigPath configManager, Returned);
           (ConfigExists configManager, Returned)])).
Proof.
  split; [reflexivity |]. split; [reflexivity |]. split.
  - intros endpoint.
    change api.config_endpoints with
      [(GET, "/api/config"); (GET, "/api/config/full"); (POST, "/api/config");
       (GET, "/api/config/path"); (GET, "/api/config/info")].
    change ((app configManager).*1) with
      [(GET, "/api/config"); (GET, "/api/config/full"); (POST, "/api/config");
       (GET, "/api/config/info"); (GET, "/api/config/path")].
    rewrite !elem_of_cons, !elem_of_nil. tauto.
  - intros h req w w1 w2 path found Hregistered Hpath Hexists.
    assert (h = get_config_path configManager) as ->.
    { destruct Hregistered as [Hin | Hin];
        [unfold router in Hin | unfold app, mount, router in Hin; cbn in Hin];
        repeat (apply elem_of_cons in Hin as [Heq | Hin];
                [by (discriminate Heq || injection Heq as ->) |]);
        by apply elem_of_nil in Hin. }
    cbn. rewrite Hpath. cbn. by rewrite Hexists.
Qed.

(** The handler of a request is one of the registered ones, registered
    for a method and a path that answer the request. *)
Lemma find_route_elem_of (routes : list (Method * string * Handler))
    (m : Method) (path : string) (h : Handler) :
  find_route routes m path = Some h ->
  ∃ m' path',
    (m', path', h) ∈ routes
    ∧ handles m' m = true
    ∧ path_matches path' path = true.
Proof.
  induction routes as [| [[m' path'] h'] rest IH]; cbn; [done |].
  destruct (handles m' m && path_matches path' path) eqn:Hmatch.
  - intros [= ->]. apply andb_prop in Hmatch as [Hm Hp].
    exists m', path'. split; [left | done].
  - intros Hrest. destruct (IH Hrest) as (m2 & path2 & Hin & Hm & Hp).
    exists m2, path2. split; [by right | done].
Qed.

(** Every call a registered handler makes is a method call on the object
    the router was built with. *)
Lemma handler_calls (configManager : obj) (entry : Method * string * Handler)
    (req : Request) (w : W) :
  entry ∈ router configManager ->
  Forall (fun c => receiver c = Some configManager)
    (called (run cls (entry.2 req) w)).
Proof.
  intros Hentry. unfold router in Hentry.
  repeat (apply elem_of_cons in Hentry as [-> | Hentry]);
    [.. | by apply elem_of_nil in Hentry]; cbn.
  - destruct (loadConfig cls configManager w) as [[e1 | v] w1]; cbn;
      by repeat constructor.
  - destruct (loadFullConfig cls configManager w) as [[e1 | v] w1]; cbn;
      by repeat constructor.
  - unfold post_config.
    destruct (get_prop (req_body req) "mcpServers") as [e0 | servers]; cbn;
      [constructor |].
    destruct (validateConfig cls configManager _ w) as [e1 | verdict]; cbn;
      [by repeat constructor |].
    destruct (valid verdict); cbn; [| by repeat constructor].
    destruct (saveConfig cls configManager (req_body req) w) as [[e2 | []] w2]; cbn;
      by repeat constructor.
  - destruct (getActiveConfigInfo cls configManager w) as [[e1 | v] w1]; cbn;
      by repeat constructor.
  - destruct (getConfigPath cls configManager w) as [[e1 | path] w1]; cbn;
      [by repeat constructor |].
    destruct (configExists cls configManager w1) as [[e2 | b] w2]; cbn;
      by repeat constructor.
Qed.

Lemma serve_calls (configManager : obj) (m : Method) (path : string)
    (req : Request) (w : W) :
  Forall (fun c => receiver c = Some configManager)
    (called (run cls (serve (router configManager) m path req) w)).
Proof.
  unfold serve.
  destruct (find_route (router configManager) m path) as [h |] eqn:Hroute;
    [| constructor].
  apply find_route_elem_of in Hroute as (m' & path' & Hroute & _).
  pose proof (handler_calls configManager _ req w Hroute) as Hcalls.
  cbn in Hcalls. unfold mbind, prog_bind. rewrite run_bind.
  destruct (run cls (h req) w) as [[[e | r] w1] tr]; cbn in *; [done |].
  unfold called, calls in *. cbn. by rewrite app_nil_r.
Qed.

Lemma serve_all_calls (configManager : obj)
    (reqs : list (Method * string * Request)) (w : W) :
  Forall (fun c => receiver c = Some configManager)
    (called (run cls (serve_all (router configManager) reqs) w)).
Proof.
  revert w. induction reqs as [| [[m path] req] rest IH]; intros w; cbn;
    [constructor |].
  unfold mbind, prog_bind. rewrite run_bind.
  pose proof (serve_calls configManager m path req w) as Hfirst.
  destruct (run cls (serve (router configManager) m path req) w)
    as [[[e | r] w1] tr]; [done |].
  rewrite run_bind. specialize (IH w1).
  destruct (run cls (serve_all (router configManager) rest) w1)
    as [[[e | rs] w2] tr2]; unfold called, calls in *; cbn in *.
  - rewrite fmap_app. by apply Forall_app.
  - rewrite app_nil_r, fmap_app. by apply Forall_app.
Qed.

(** C5, as the code has it. Loading the module constructs one
    ConfigManager; whatever requests are then served, the constructor call
    of the load is the only one, and every other call is made on the
    object it returned: one ConfigManager is shared by all requests. *)
Theorem one_shared_config_manager (configManager : obj)
    (reqs : list (Method * string * Request)) (w w1 : W) :
  construct cls w = (inr configManager, w1) ->
  ∃ served,
    called (run cls (routes ← load_module; serve_all routes reqs) w) = New :: served
    ∧ Forall (fun c => receiver c = Some configManager) served
    ∧ New ∉ served.
Proof.
  intros Hnew.
  exists (called (run cls (serve_all (router configManager) reqs) w1)).
  pose proof (serve_all_calls configManager reqs w1) as Hcalls.
  split; [| split; [done |]].
  - unfold load_module, mbind, prog_bind. rewrite !run_bind.
    cbn [invoke run perform]. rewrite Hnew.
    cbn [run bind outcome_of app].
    by destruct (run cls (serve_all (router configManager) reqs) w1) as [[r w2] tr].
  - intros Hin. rewrite Forall_forall in Hcalls.
    by specialize (Hcalls New Hin).
Qed.

(** C8, the route's part. When the validator accepts, the handler makes
    two calls: the validation, on an object holding nothing but the
    [mcpServers] of the body, and [saveConfig], on the whole body; it
    answers 200 when [saveConfig] returns. *)
Lemma post_config_validates_servers_saves_body
    (configManager : obj) (req : Request) (w : W)
    (servers : json) (verdict : ValidationResult) :
  get_prop (req_body req) "mcpServers" = inr servers ->
  validateConfig cls configManager (JObj [("mcpServers", servers)]) w = inr verdict ->
  valid verdict = true ->
  let r := run cls (post_config configManager req) w in
  called r = [ValidateConfig configManager (JObj [("mcpServers", servers)]);
              SaveConfig configManager (req_body req)]
  ∧ world_after r = (saveConfig cls configManager (req_body req) w).2
  ∧ (∀ w2, saveConfig cls configManager (req_body req) w = (inr tt, w2) ->
           answer r = inr (res_json saved_successfully)).
Proof.
  intros Hservers Hverdict Hvalid. unfold post_config.
  rewrite Hservers. cbn. rewrite Hverdict. cbn. rewrite Hvalid. cbn.
  destruct (saveConfig cls configManager (req_body req) w) as [[e | []] w2];
    cbn; repeat split; by intros ? [=].
Qed.
End Routes.

(* ===================================================================== *)
(** * Values: serialising what was parsed *)
(* ===================================================================== *)

(** A parsed value survives [JSON.stringify] followed by [JSON.parse]. *)
Lemma jsonify_id (v : json) : is_json v = true -> jsonify v = v.
Proof.
  induction v as [| | b | n | s | items IH | fields IH] using json_nested_ind;
    cbn; try done.
  - intros Hitems. f_equal.
    induction IH as [| x rest Hx _ IHrest]; [done |].
    cbn in Hitems. apply andb_prop in Hitems as [Hhead Hrest].
    cbn. rewrite (IHrest Hrest). f_equal.
    rewrite (Hx Hhead). by destruct x.
  - intros Hfields. f_equal.
    induction IH as [| [k x] rest Hx _ IHrest]; [done |].
    apply andb_prop in Hfields as [Hhead Hrest].
    rewrite (IHrest Hrest). cbn in Hx. rewrite (Hx Hhead). by destruct x.
Qed.

Lemma JSON_stringify_parsed (v : json) :
  is_json v = true -> JSON_stringify v = Some v.
Proof.
  intros Hv. unfold JSON_stringify. rewrite (jsonify_id v Hv). by destruct v.
Qed.

(* ===================================================================== *)
(** * The file system of the model *)
(* ===================================================================== *)

Lemma string_length_append (s1 s2 : string) :
  String.length (s1 +:+ s2) = (String.length s1 + String.length s2)%nat.
Proof. induction s1 as [| a s1 IH]; simpl; [done | by f_equal]. Qed.

(** A backup never has the name of the file it copies. *)
Lemma backup_name_ne (file timestamp : string) :
  backup_name file timestamp ≠ file.
Proof.
  unfold backup_name. intros Heq. apply (f_equal String.length) in Heq.
  rewrite !string_length_append in Heq. simpl in Heq. lia.
Qed.

Lemma config_path_backup (w : World) : config_path (backup w) = config_path w.
Proof. unfold backup. by destruct (files w !! config_path w). Qed.

(** The copy leaves the configuration file as it is. *)
Lemma backup_keeps_config (w : World) :
  files (backup w) !! config_path w = files w !! config_path w.
Proof.
  unfold backup. destruct (files w !! config_path w) as [old |] eqn:Hold; [| done].
  cbn. rewrite lookup_insert_ne; [done | apply backup_name_ne].
Qed.

Lemma backup_copies (w : World) (old : content) :
  files w !! config_path w = Some old ->
  files (backup w) !! backup_name (config_path w) (now w) = Some old.
Proof. intros Hold. unfold backup. rewrite Hold. cbn. apply lookup_insert_eq. Qed.

Lemma backup_grows (w : World) (f : string) :
  is_Some (files w !! f) -> is_Some (files (backup w) !! f).
Proof.
  intros Hf. unfold backup. destruct (files w !! config_path w) as [old |]; [| done].
  cbn. rewrite lookup_insert. by case_decide.
Qed.

Lemma write_config_grows (document : json) (w : World) (f : string) :
  is_Some (files w !! f) -> is_Some (files (write_config document w) !! f).
Proof. intros Hf. cbn. rewrite lookup_insert. by case_decide. Qed.

Lemma read_after_write (document : json) (w : World) :
  read_config (write_config document w) = inr document.
Proof. unfold read_config. cbn. by rewrite lookup_insert_eq. Qed.

(* ===================================================================== *)
(** * The routes over the ConfigManager of the specification *)
(* ===================================================================== *)

Section SpecManagerFacts.
Variable schema : json -> ValidationResult.
Variable describe : World -> json.

(** No call on the manager removes a file. *)
Lemma perform_grows (c : call) (w : World) (f : string) :
  is_Some (files w !! f) -> is_Some (files (perform (manager schema describe) c w).2 !! f).
Proof.
  intros Hf. destruct c; cbn; try done.
  destruct (JSON_stringify config); [| done].
  by apply write_config_grows, backup_grows.
Qed.

(** Hence no program does. *)
Lemma run_grows {A : Type} (p : prog A) (w : World) (f : string) :
  is_Some (files w !! f) -> is_Some (files (world_after (run (manager schema describe) p w)) !! f).
Proof.
  revert w. induction p as [a | e | c k IH]; intros w Hf; cbn; [done | done |].
  pose proof (perform_grows c w f Hf) as Hstep.
  destruct (perform (manager schema describe) c w) as [r w1]. specialize (IH r w1 Hstep).
  by destruct (run (manager schema describe) (k r) w1) as [[res w2] tr].
Qed.

(** Nor does the passing of time. *)
Lemma evolves_grows (configManager : obj) (w w' : World) (f : string) :
  evolves schema describe configManager w w' ->
  is_Some (files w !! f) -> is_Some (files w' !! f).
Proof.
  induction 1 as [w | w w' m path req _ IH | w w' timestamp _ IH]; intros Hf.
  - done.
  - by apply run_grows, IH.
  - by apply IH.
Qed.

(** An accepted body is copied over the file, after the backup. *)
Lemma manager_post_accepted (configManager : obj) (req : Request) (w : World)
    (servers : json) :
  is_json (req_body req) = true ->
  get_prop (req_body req) "mcpServers" = inr servers ->
  valid (schema (JObj [("mcpServers", servers)])) = true ->
  run (manager schema describe) (post_config configManager req) w =
    (inr (res_json saved_successfully),
     write_config (req_body req) (backup w),
     [(ValidateConfig configManager (JObj [("mcpServers", servers)]), Returned);
      (SaveConfig configManager (req_body req), Returned)]).
Proof.
  intros Hjson Hservers Hvalid. unfold post_config.
  rewrite Hservers. cbn. rewrite Hvalid. cbn.
  by rewrite (JSON_stringify_parsed _ Hjson).
Qed.

(** A rejected body leaves the world alone. *)
Lemma manager_post_rejected (configManager : obj) (req : Request) (w : World)
    (servers : json) :
  get_prop (req_body req) "mcpServers" = inr servers ->
  valid (schema (JObj [("mcpServers", servers)])) = false ->
  world_after (run (manager schema describe) (post_config configManager req) w) = w.
Proof.
  intros Hservers Hinvalid. unfold post_config.
  rewrite Hservers. cbn. by rewrite Hinvalid.
Qed.

(** What [GET /config] and [GET /config/full] answer is what the file
    holds. *)
Lemma manager_get_config (configManager : obj) (req : Request) (w : World)
    (document : json) :
  read_config w = inr document ->
  run (manager schema describe) (get_config configManager req) w =
    (inr (res_json document), w, [(LoadConfig configManager, Returned)]).
Proof. intros Hread. cbn. by rewrite Hread. Qed.

Lemma manager_get_config_full (configManager : obj) (req : Request) (w : World)
    (document : json) :
  read_config w = inr document ->
  run (manager schema describe) (get_config_full configManager req) w =
    (inr (res_json document), w, [(LoadFullConfig configManager, Returned)]).
Proof. intros Hread. cbn. by rewrite Hread. Qed.

(** C2. A body that the validator accepts, posted to [/config], is what
    the next [GET /config] answers: the two requests, served in this order,
    are answered with the success message and with the body that was
    saved. *)
Theorem save_then_load_roundtrip
    (configManager : obj) (saved loaded : Request) (w : World) (servers : json) :
  is_json (req_body saved) = true ->
  get_prop (req_body saved) "mcpServers" = inr servers ->
  valid (schema (JObj [("mcpServers", servers)])) = true ->
  answer (run (manager schema describe)
            (serve_all (router configManager)
               [(POST, "/config", saved); (GET, "/config", loaded)]) w) =
    inr [Some (res_json saved_successfully); Some (res_json (req_body saved))].
Proof.
  intros Hjson Hservers Hvalid.
  change (serve_all (router configManager)
            [(POST, "/config", saved); (GET, "/config", loaded)])
    with (bind (bind (post_config configManager saved) (fun r => Ret (Some r)))
            (fun r1 =>
               bind (bind (bind (get_config configManager loaded)
                             (fun r => Ret (Some r)))
                       (fun r2 => bind (Ret []) (fun rs => Ret (r2 :: rs))))
                 (fun rs => Ret (r1 :: rs)))).
  rewrite !run_bind.
  rewrite (manager_post_accepted configManager saved w servers Hjson Hservers Hvalid).
  cbn [run]. rewrite !run_bind.
  rewrite (manager_get_config configManager loaded _ (req_body saved)
             (read_after_write _ _)).
  reflexivity.
Qed.

(** C3. A save that goes through, over an existing file: the old content
    is first copied to the file named [<file>.backup.<timestamp>], the
    path of the configuration file followed by [.backup.] and the time
    stamp of the moment, while the file still holds it; then the file is
    overwritten; the copy is there afterwards, and whatever the server does
    later, and however much time passes, no file that exists is removed. *)
Theorem backup_before_overwrite
    (configManager : obj) (req : Request) (w : World)
    (servers : json) (old : content) :
  is_json (req_body req) = true ->
  get_prop (req_body req) "mcpServers" = inr servers ->
  valid (schema (JObj [("mcpServers", servers)])) = true ->
  files w !! config_path w = Some old ->
  let r := run (manager schema describe) (post_config configManager req) w in
  let copy := config_path w +:+ ".backup." +:+ now w in
  answer r = inr (res_json saved_successfully)
  ∧ world_after r = write_config (req_body req) (backup w)
  ∧ files (backup w) !! copy = Some old
  ∧ files (backup w) !! config_path w = Some old
  ∧ files (world_after r) !! copy = Some old
  ∧ files (world_after r) !! config_path w = Some (Doc (req_body req))
  ∧ (∀ f, f ≠ copy -> f ≠ config_path w ->
          files (world_after r) !! f = files w !! f)
  ∧ (∀ later f,
       evolves schema describe configManager (world_after r) later ->
       is_Some (files (world_after r) !! f) -> is_Some (files later !! f)).
Proof.
  intros Hjson Hservers Hvalid Hold r copy. subst r copy.
  change (config_path w +:+ ".backup." +:+ now w)
    with (backup_name (config_path w) (now w)).
  rewrite (manager_post_accepted configManager req w servers Hjson Hservers Hvalid).
  unfold answer, world_after. cbn [fst snd].
  split; [done |]. split; [done |].
  split; [by apply backup_copies |].
  split; [by rewrite backup_keeps_config |].
  split.
  { unfold write_config. cbn [files with_files]. rewrite config_path_backup.
    rewrite lookup_insert_ne; [by apply backup_copies |].
    intros Heq. by apply (backup_name_ne (config_path w) (now w)). }
  split.
  { unfold write_config. cbn [files with_files]. rewrite config_path_backup.
    apply lookup_insert_eq. }
  split.
  { intros f Hcopy Hfile.
    unfold write_config. cbn [files with_files]. rewrite config_path_backup.
    rewrite lookup_insert_ne by done.
    unfold backup. rewrite Hold. cbn [files with_files].
    by rewrite lookup_insert_ne. }
  intros later f Hlater. by apply (evolves_grows configManager).
Qed.

(** C4. The file holds a document; the browser loads it, edits it and
    posts the result. Validation only gives a verdict: whatever it is, the
    file then holds a document that agrees with the loaded one on every
    field the edit left alone, and it is the edited document itself when
    the validator accepts. *)
Theorem load_validate_keeps_unedited
    (configManager : obj) (req : Request) (w : World)
    (document : json) (edit : json -> json) :
  files w !! config_path w = Some (Doc document) ->
  is_json (edit document) = true ->
  let after :=
    world_after (run (manager schema describe) (post_config configManager {| req_body := edit document |}) w) in
  answer (run (manager schema describe) (get_config_full configManager req) w) = inr (res_json document)
  ∧ ∃ stored,
      files after !! config_path after = Some (Doc stored)
      ∧ (∀ k, get_prop (edit document) k = get_prop document k ->
              get_prop stored k = get_prop document k)
      ∧ (∀ servers,
           get_prop (edit document) "mcpServers" = inr servers ->
           valid (schema (JObj [("mcpServers", servers)])) = true ->
           stored = edit document).
Proof.
  intros Hfile Hjson after. split.
  { rewrite (manager_get_config_full configManager req w document); [done |].
    unfold read_config. by rewrite Hfile. }
  subst after.
  destruct (get_prop (edit document) "mcpServers") as [e | servers] eqn:Hservers.
  { exists document. unfold post_config. cbn. rewrite Hservers. cbn.
    split; [done |]. split; [done |]. by intros servers [=]. }
  destruct (valid (schema (JObj [("mcpServers", servers)]))) eqn:Hverdict.
  - exists (edit document).
    rewrite (manager_post_accepted configManager {| req_body := edit document |} w
               servers Hjson Hservers Hverdict).
    unfold world_after. cbn [fst snd]. split.
    + unfold write_config. cbn [files with_files config_path].
      apply lookup_insert_eq.
    + by split.
  - exists document.
    rewrite (manager_post_rejected configManager {| req_body := edit document |} w
               servers Hservers Hverdict).
    split; [done |]. split; [done |].
    intros servers' [= <-] Hvalid. congruence.
Qed.
End SpecManagerFacts.

(** C8. [POST /config] checks the [mcpServers] of the body and nothing
    else, and saves the body whole. For every ConfigManager: when the
    validator accepts, the calls are the validation of an object that holds
    only [mcpServers] (the same object for every body with these servers)
    and [saveConfig] on the entire body. On the ConfigManager of the
    specification the file then holds the entire body, extra top-level
    fields included. *)
Theorem post_config_saves_whole_body
    (configManager : obj) (req : Request) (servers : json) :
  get_prop (req_body req) "mcpServers" = inr servers ->
  (∀ (W : Type) (cls : ConfigManagerClass W) (w : W) (verdict : ValidationResult),
     validateConfig cls configManager (JObj [("mcpServers", servers)]) w = inr verdict ->
     valid verdict = true ->
     called (run cls (post_config configManager req) w) =
       [ValidateConfig configManager (JObj [("mcpServers", servers)]);
        SaveConfig configManager (req_body req)])
  ∧ (∀ (schema : json -> ValidationResult) (describe : World -> json) (disk : World),
       is_json (req_body req) = true ->
       valid (schema (JObj [("mcpServers", servers)])) = true ->
       let r := run (manager schema describe) (post_config configManager req) disk in
       answer r = inr (res_json saved_successfully)
       ∧ files (world_after r) !! config_path (world_after r)
         = Some (Doc (req_body req))).
Proof.
  intros Hservers. split.
  - intros W cls w verdict Hverdict Hvalid.
    by destruct (post_config_validates_servers_saves_body cls configManager req w
                   servers verdict Hservers Hverdict Hvalid) as [Hcalls _].
  - intros schema describe disk Hjson Haccepts r. subst r.
    rewrite (manager_post_accepted schema describe configManager req disk servers
               Hjson Hservers Haccepts).
    split; [done |]. unfold world_after, write_config.
    cbn [fst snd files with_files config_path]. apply lookup_insert_eq.
Qed.

(* ===================================================================== *)
(** * The client: handleResponse *)
(* ===================================================================== *)

(** A 2xx response is answered with whatever [response.json()] gives. *)
Lemma handleResponse_ok (response : FetchResponse) :
  resp_ok response = true -> handleResponse response = resp_json response.
Proof. intros Hok. unfold handleResponse. by rewrite Hok. Qed.

(** Any other response makes it throw. *)
Lemma handleResponse_throws (response : FetchResponse) :
  resp_ok response = false -> ∃ e, handleResponse response = inl e.
Proof.
  intros Hok. unfold handleResponse. rewrite Hok. cbn.
  destruct (get_prop _ "message"); [eauto |].
  destruct (to_string _); eauto.
Qed.

(** X16. An error response whose body is not JSON (an HTML page of a
    proxy, an empty body) makes [handleResponse] throw the [Error] with the
    fallback text. *)
Lemma handleResponse_not_json (response : FetchResponse) (e : exn) :
  resp_ok response = false -> resp_json response = inl e -> falls_back response.
Proof.
  intros Hok Hbody. unfold falls_back, handleResponse. by rewrite Hok, Hbody.
Qed.

(** X15. An error response with a JSON body other than [null] makes
    [handleResponse] throw according to the [message] of the body: the
    [Error] with the fallback text when it is absent or falsy; the [Error]
    with that very text when it is a non-empty string; and otherwise, for
    a truthy value whose numbers are integers up to 2^53 - 1 in size, the
    [Error] with its conversion to a string, or the [TypeError] of that
    conversion when an object in the way has an own [toString]. *)
Theorem handleResponse_message (response : FetchResponse) (v : json) :
  resp_ok response = false ->
  resp_json response = inr v ->
  v ≠ JNull -> v ≠ JUndefined ->
  ∃ m, get_prop v "message" = inr m
       ∧ (truthy m = false ->
          handleResponse response = inl (Error "Request failed"))
       ∧ (∀ text, m = JStr text -> text ≠ "" ->
          handleResponse response = inl (Error text))
       ∧ (∀ fields, m = JObj fields ->
          handleResponse response =
            if has_key "toString" fields
            then inl (TypeError "Cannot convert object to primitive value")
            else inl (Error "[object Object]"))
       ∧ (truthy m = true -> safe_numbers m = true ->
          handleResponse response =
            match to_string m with
            | inl e => inl e
            | inr text => inl (Error text)
            end).
Proof.
  intros Hok Hbody Hnull Hundef. unfold handleResponse. rewrite Hok, Hbody. cbn.
  assert (∃ m, get_prop v "message" = inr m) as [m Hm]
    by (destruct v; try done; cbn; eauto).
  exists m. split; [done |]. rewrite Hm. unfold js_or.
  split; [by intros -> |].
  split.
  { intros text -> Hne. cbn. destruct text; [done | reflexivity]. }
  split.
  { intros fields ->. cbn. by destruct (has_key "toString" fields). }
  by intros -> _.
Qed.

(** C10, where the code departs from it. An error response whose JSON
    body is [null] has no [message] field, yet [handleResponse] does not
    throw the [Error] with the fallback text: reading [error.message]
    throws a [TypeError] first. So does [api.getConfig] on such a
    response. *)
Theorem handleResponse_null_error_body :
  resp_ok null_error_response = false
  ∧ handleResponse null_error_response =
      inl (TypeError "Cannot read properties of null (reading 'message')")
  ∧ ¬ falls_back null_error_response
  ∧ api.getConfig (fun _ => inr null_error_response) =
      inl (TypeError "Cannot read properties of null (reading 'message')").
Proof.
  split; [reflexivity |]. split; [reflexivity |]. split; [| reflexivity].
  unfold falls_back. intros Heq. cbn in Heq. discriminate Heq.
Qed.

(* ===================================================================== *)
(** * The statements on the sample data *)
(* ===================================================================== *)

(** C5, as the specification words it, fails: serving [GET /config]
    creates no service object, and two requests served by the loaded
    module are answered by the same object, the one made at load time. *)
Lemma no_instance_per_request :
  ¬ instantiates_service sample_manager (router 0%nat) GET "/config"
      {| req_body := JNull |} sample_disk
  ∧ called (run sample_manager
              (routes ← load_module;
               serve_all routes [(GET, "/config", {| req_body := JNull |});
                                 (GET, "/config/path", {| req_body := JNull |})])
              sample_disk)
    = [New; LoadConfig 0%nat; GetConfigPath 0%nat; ConfigExists 0%nat].
Proof.
  split; [| reflexivity].
  unfold instantiates_service.
  change (called (run sample_manager
                    (serve (router 0%nat) GET "/config" {| req_body := JNull |})
                    sample_disk))
    with [LoadConfig 0%nat].
  intros Hnew. apply list_elem_of_singleton in Hnew. discriminate Hnew.
Qed.

Lemma post_config_rejects_invalid_witness :
  let r := run sample_manager (post_config 0%nat {| req_body := broken_config |})
             sample_disk in
  answer r = inr (res_status_json 400 (invalid_configuration (JArr [JStr "files"])))
  ∧ called r = [ValidateConfig 0%nat (JObj [("mcpServers", broken_servers)])]
  ∧ (∀ c, c ∈ called r -> is_save c = false)
  ∧ world_after r = sample_disk.
Proof.
  apply (post_config_rejects_invalid sample_manager 0%nat
           {| req_body := broken_config |} sample_disk broken_servers
           (shape_check (JObj [("mcpServers", broken_servers)])));
    reflexivity.
Defined.

Lemma config_routes_answer_500_witness :
  ∃ resp,
    answer (run sample_manager (get_config 0%nat {| req_body := JNull |}) empty_disk)
      = inr resp
    ∧ is_internal_error missing_file resp.
Proof.
  apply (config_routes_answer_500 sample_manager 0%nat
           (GET, "/config", get_config 0%nat) {| req_body := JNull |} empty_disk
           (LoadConfig 0%nat) missing_file).
  - apply list_elem_of_here.
  - change (calls (run sample_manager
                     ((GET, "/config", get_config 0%nat).2 {| req_body := JNull |})
                     empty_disk))
      with [(LoadConfig 0%nat, Threw missing_file)].
    apply list_elem_of_here.
Defined.

Lemma config_router_routes_witness :
  run sample_manager (get_config_path 0%nat {| req_body := JNull |}) sample_disk
  = (inr (res_json (JObj [("path", JStr sample_path); ("exists", JBool true)])),
     sample_disk,
     [(GetConfigPath 0%nat, Returned); (ConfigExists 0%nat, Returned)]).
Proof.
  apply (proj2 (proj2 (proj2 (config_router_routes sample_manager 0%nat)))
           (get_config_path 0%nat) {| req_body := JNull |}
           sample_disk sample_disk sample_disk sample_path true).
  - left. do 4 apply list_elem_of_further. apply list_elem_of_here.
  - reflexivity.
  - reflexivity.
Defined.

Lemma one_shared_config_manager_witness :
  ∃ served,
    called (run sample_manager
              (routes ← load_module;
               serve_all routes [(GET, "/config", {| req_body := JNull |});
                                 (POST, "/config", {| req_body := edited_config |})])
              sample_disk) = New :: served
    ∧ Forall (fun c => receiver c = Some 0%nat) served
    ∧ New ∉ served.
Proof.
  apply (one_shared_config_manager sample_manager 0%nat
           [(GET, "/config", {| req_body := JNull |});
            (POST, "/config", {| req_body := edited_config |})]
           sample_disk
           {| files := files sample_disk; config_path := sample_path;
              now := now sample_disk; fresh := 1%nat |}).
  reflexivity.
Defined.

Lemma save_then_load_roundtrip_witness :
  answer (run sample_manager
            (serve_all (router 0%nat)
               [(POST, "/config", {| req_body := edited_config |});
                (GET, "/config", {| req_body := JNull |})]) sample_disk)
  = inr [Some (res_json saved_successfully); Some (res_json edited_config)].
Proof.
  apply (save_then_load_roundtrip shape_check no_info 0%nat
           {| req_body := edited_config |} {| req_body := JNull |} sample_disk
           sample_servers);
    reflexivity.
Defined.

Lemma backup_before_overwrite_witness :
  files (world_after (run sample_manager
                        (post_config 0%nat {| req_body := edited_config |})
                        sample_disk))
    !! "/home/user/.config/Claude/claude_desktop_config.json.backup.1700000000000"
  = Some (Doc sample_config).
Proof.
  apply (backup_before_overwrite shape_check no_info 0%nat
           {| req_body := edited_config |} sample_disk sample_servers
           (Doc sample_config));
    reflexivity.
Defined.

Lemma load_validate_keeps_unedited_witness :
  answer (run sample_manager (get_config_full 0%nat {| req_body := JNull |}) sample_disk)
  = inr (res_json sample_config).
Proof.
  apply (load_validate_keeps_unedited shape_check no_info 0%nat
           {| req_body := JNull |} sample_disk sample_config set_theme);
    reflexivity.
Defined.

Lemma post_config_saves_whole_body_witness :
  called (run sample_manager (post_config 0%nat {| req_body := edited_config |})
            sample_disk)
  = [ValidateConfig 0%nat (JObj [("mcpServers", sample_servers)]);
     SaveConfig 0%nat edited_config]
  ∧ files (world_after (run sample_manager
                          (post_config 0%nat {| req_body := edited_config |})
                          sample_disk)) !! sample_path
    = Some (Doc edited_config).
Proof.
  destruct (post_config_saves_whole_body 0%nat {| req_body := edited_config |}
              sample_servers eq_refl) as [Hroute Hfile].
  split.
  - apply (Hroute World sample_manager sample_disk
             (shape_check (JObj [("mcpServers", sample_servers)])));
      reflexivity.
  - apply (Hfile shape_check no_info sample_disk); reflexivity.
Defined.

(* ===================================================================== *)
(** * More on the routes, for every implementation of the ConfigManager *)
(* ===================================================================== *)

Section RouteFacts.
Context {W : Type} (cls : ConfigManagerClass W).

(** One goal per registered route. *)
Ltac each_route H :=
  unfold router in H;
  repeat (apply elem_of_cons in H as [-> | H]);
  [.. | by apply elem_of_nil in H]; cbn.

(** One goal per way the calls of a handler can end. *)
Ltac call_cases :=
  unfold post_config; cbn;
  repeat match goal with
    | |- context [loadConfig ?c ?o ?w] =>
        destruct (loadConfig c o w) as [[?|?] ?] eqn:?; cbn
    | |- context [loadFullConfig ?c ?o ?w] =>
        destruct (loadFullConfig c o w) as [[?|?] ?] eqn:?; cbn
    | |- context [getActiveConfigInfo ?c ?o ?w] =>
        destruct (getActiveConfigInfo c o w) as [[?|?] ?] eqn:?; cbn
    | |- context [getConfigPath ?c ?o ?w] =>
        destruct (getConfigPath c o w) as [[?|?] ?] eqn:?; cbn
    | |- context [configExists ?c ?o ?w] =>
        destruct (configExists c o w) as [[?|?] ?] eqn:?; cbn
    | |- context [get_prop ?b "mcpServers"] =>
        destruct (get_prop b "mcpServers") as [?|?] eqn:?; cbn
    | |- context [validateConfig ?c ?o ?j ?w] =>
        destruct (validateConfig c o j w) as [?|?] eqn:?; cbn
    | |- context [valid ?v] =>
        destruct (valid v) eqn:?; cbn
    | |- context [saveConfig ?c ?o ?j ?w] =>
        destruct (saveConfig c o j w) as [[?|[]] ?] eqn:?; cbn
    end.

(** X1. No handler lets an [Error] escape: whatever the ConfigManager
    returns, and whichever [Error] any of its methods throws, each of the
    five routes sends an answer, and its status is 200, 400 or 500. *)
Theorem handlers_always_answer
    (configManager : obj) (entry : Method * string * Handler)
    (req : Request) (w : W) :
  entry ∈ router configManager ->
  ∃ resp,
    answer (run cls (entry.2 req) w) = inr resp
    ∧ (status resp = 200 ∨ status resp = 400 ∨ status resp = 500).
Proof.
  intros Hentry. each_route Hentry; call_cases;
    eexists; (split; [reflexivity |]); cbn; tauto.
Qed.

(** X2. The four GET routes only read: they call neither [validateConfig]
    nor [saveConfig], make at most two calls, and answer 200 or 500, never
    400. *)
Theorem get_routes_read_only
    (configManager : obj) (entry : Method * string * Handler)
    (req : Request) (w : W) :
  entry ∈ router configManager ->
  entry.1.1 = GET ->
  let r := run cls (entry.2 req) w in
  Forall (fun c => is_save c = false ∧ is_validate c = false) (called r)
  ∧ (length (called r) <= 2)%nat
  ∧ ∃ resp, answer r = inr resp ∧ (status resp = 200 ∨ status resp = 500).
Proof.
  intros Hentry. each_route Hentry; intros Hmethod; try discriminate Hmethod;
    call_cases;
    (split; [by repeat constructor |]); (split; [lia |]);
    eexists; (split; [reflexivity |]); cbn; tauto.
Qed.

(** X3. [POST /config] calls [saveConfig] only with the body of the
    request, and only after [validateConfig] has returned a verdict with
    [valid] true on the [mcpServers] of that body. *)
Theorem post_config_saves_only_valid
    (configManager : obj) (req : Request) (w : W) (c : call) :
  c ∈ called (run cls (post_config configManager req) w) ->
  is_save c = true ->
  c = SaveConfig configManager (req_body req)
  ∧ ∃ servers verdict,
      get_prop (req_body req) "mcpServers" = inr servers
      ∧ validateConfig cls configManager (JObj [("mcpServers", servers)]) w = inr verdict
      ∧ valid verdict = true.
Proof.
  call_cases; intros Hc Hsave;
    repeat (apply elem_of_cons in Hc as [-> | Hc]);
    try (by apply elem_of_nil in Hc); try discriminate Hsave;
    (split; [done |]); eauto.
Qed.

(** X4. [POST /config] answers 200 exactly when the body has readable
    [mcpServers], the validator accepts them and [saveConfig] returns. *)
Theorem post_config_success_iff
    (configManager : obj) (req : Request) (w : W) :
  (∃ resp, answer (run cls (post_config configManager req) w) = inr resp
           ∧ status resp = 200)
  <-> ∃ servers verdict w2,
        get_prop (req_body req) "mcpServers" = inr servers
        ∧ validateConfig cls configManager (JObj [("mcpServers", servers)]) w = inr verdict
        ∧ valid verdict = true
        ∧ saveConfig cls configManager (req_body req) w = (inr tt, w2).
Proof.
  call_cases; split;
    try (intros (resp & [= <-] & Hstatus); cbn in Hstatus; try discriminate Hstatus);
    try (intros (servers & verdict & w2 & [=] & Hv & Hvalid & Hsave));
    simplify_eq; eauto 10; congruence.
Qed.

(** X5. When [saveConfig] is not called, [POST /config] leaves the world
    as it found it: a null body, a validator that throws and a rejected
    body all change nothing. *)
Theorem post_config_changes_only_by_saving
    (configManager : obj) (req : Request) (w : W) :
  Forall (fun c => is_save c = false)
    (called (run cls (post_config configManager req) w)) ->
  world_after (run cls (post_config configManager req) w) = w.
Proof.
  call_cases; intros Hcalls; try reflexivity;
    repeat (apply Forall_cons in Hcalls as [? Hcalls]); discriminate.
Qed.

(** X6. [POST /config] makes no call at all exactly when the body is
    [null] or [undefined]; every other body, an array or a number too,
    reaches the validator. *)
Theorem post_config_calls_nothing_iff
    (configManager : obj) (req : Request) (w : W) :
  called (run cls (post_config configManager req) w) = []
  <-> req_body req = JNull ∨ req_body req = JUndefined.
Proof.
  unfold post_config. destruct (req_body req); call_cases;
    split; intros H; try discriminate H; try tauto;
    destruct H as [H | H]; discriminate H.
Qed.

(** X7. For a body that is neither [null] nor [undefined] the first call
    is the validation of [{ mcpServers }], where [mcpServers] is the
    property of the body when it is an object and [undefined] when it is
    an array or a primitive. *)
Theorem post_config_validates_first
    (configManager : obj) (req : Request) (w : W) :
  req_body req ≠ JNull ->
  req_body req ≠ JUndefined ->
  ∃ servers rest,
    called (run cls (post_config configManager req) w) =
      ValidateConfig configManager (JObj [("mcpServers", servers)]) :: rest
    ∧ servers = match req_body req with
                | JObj fields => assoc "mcpServers" fields
                | _ => JUndefined
                end.
Proof.
  intros Hnull Hundefined. unfold post_config.
  destruct (req_body req); try done; call_cases; eauto.
Qed.

(** X8. [GET /config/path] stops at the first failure: when
    [getConfigPath] throws, [configExists] is not called and the answer is
    the 500 of the [catch] block. *)
Theorem get_config_path_stops_at_first_error
    (configManager : obj) (req : Request) (w w1 : W) (e : exn) :
  getConfigPath cls configManager w = (inl e, w1) ->
  run cls (get_config_path configManager req) w =
    (inr (internal_error "Failed to get config path: " e), w1,
     [(GetConfigPath configManager, Threw e)]).
Proof. intros Hpath. cbn. by rewrite Hpath. Qed.

(** X9. When the constructor throws, loading the module fails with that
    error: the top-level [new ConfigManager()] has no [try] around it, and
    no router comes out. *)
Theorem load_module_fails (w w1 : W) (e : exn) :
  construct cls w = (inl e, w1) ->
  run cls load_module w = (inl e, w1, [(New, Threw e)]).
Proof. intros Hnew. unfold load_module. cbn. by rewrite Hnew. Qed.

(** X10. Whatever a route answers with a status other than 200, the
    client turns into an [Error] with the message the server wrote: the
    body of a failure is never one [handleResponse] cannot read. *)
Theorem client_surfaces_route_errors
    (configManager : obj) (entry : Method * string * Handler)
    (req : Request) (w : W) (resp : Response) :
  entry ∈ router configManager ->
  answer (run cls (entry.2 req) w) = inr resp ->
  status resp ≠ 200 ->
  ∃ msg,
    get_prop (body resp) "message" = inr (JStr msg)
    ∧ handleResponse (deliver resp) = inl (Error msg).
Proof.
  intros Hentry. each_route Hentry; call_cases;
    intros [= <-] Hstatus; try done; eexists; split; reflexivity.
Qed.
End RouteFacts.

(** X11. No registration shadows another. The five registrations have
    five different method and path pairs, and a request is dispatched to a
    handler exactly when that handler is registered for a method that
    answers the request's (its own, or GET for a HEAD request) and for a
    path that matches the request's as the router compares paths, without
    case and with one trailing slash allowed. *)
Theorem router_dispatch
    (configManager : obj) (m : Method) (path : string) (h : Handler) :
  NoDup (router configManager).*1
  ∧ (find_route (router configManager) m path = Some h
     <-> ∃ m' path',
           (m', path', h) ∈ router configManager
           ∧ handles m' m = true
           ∧ path_matches path' path = true).
Proof.
  split.
  - change ((router configManager).*1) with
      [(GET, "/config"); (GET, "/config/full"); (POST, "/config");
       (GET, "/config/info"); (GET, "/config/path")].
    repeat (apply NoDup_cons; split;
            [rewrite ?not_elem_of_cons; repeat split;
             try discriminate; apply not_elem_of_nil |]).
    apply NoDup_nil_2.
  - split; [apply find_route_elem_of |].
    intros (m' & path' & Hentry & Hm & Hp).
    unfold path_matches in Hp. apply orb_prop in Hp.
    unfold router in Hentry.
    repeat (apply elem_of_cons in Hentry as [[= -> -> ->] | Hentry]);
      try (by apply elem_of_nil in Hentry);
      destruct Hp as [Hp | Hp]; apply String.eqb_eq in Hp; cbn in Hp;
      unfold find_route, router, path_matches; rewrite <- Hp;
      by destruct m.
Qed.

(* ===================================================================== *)
(** * More on the client *)
(* ===================================================================== *)

(** X12. A 2xx answer whose body is a JSON value comes back to the caller
    as that value. *)
Theorem client_receives_json_answer (resp : Response) :
  (200 <= status resp <= 299) ->
  is_json (body resp) = true ->
  handleResponse (deliver resp) = inr (body resp).
Proof.
  intros Hstatus Hjson. unfold handleResponse, resp_ok, deliver. cbn.
  rewrite (JSON_stringify_parsed _ Hjson).
  replace (200 <=? status resp) with true by (symmetry; apply Z.leb_le; lia).
  replace (status resp <=? 299) with true by (symmetry; apply Z.leb_le; lia).
  reflexivity.
Qed.

(** X13. On a response that is not 2xx none of the eight methods of [api]
    returns data: each one throws. *)
Theorem api_methods_throw_on_error
    (response : FetchResponse) (encodeURIComponent : string -> string)
    (config : json) (id query : string) :
  resp_ok response = false ->
  let fetch := fun _ : FetchRequest => @inr exn FetchResponse response in
  Forall (fun outcome => ∃ e, outcome = inl e)
    [ api.getConfig fetch; api.getFullConfig fetch; api.saveConfig fetch config;
      api.getConfigPath fetch; api.getConfigInfo fetch; api.getPresets fetch;
      api.getPresetById fetch id;
      api.searchPresets fetch encodeURIComponent query ].
Proof.
  intros Hok fetch. pose proof (handleResponse_throws response Hok) as Hthrows.
  repeat (constructor; [exact Hthrows |]). constructor.
Qed.

(** X14. [getPresetById] puts its argument into the URL as it is, while
    [searchPresets] escapes its own: an id that starts with [search/]
    issues the very request of a search. *)
Theorem getPresetById_is_not_escaped
    (fetch : FetchRequest -> exn + FetchResponse)
    (encodeURIComponent : string -> string) (query : string) :
  api.getPresetById fetch ("search/" +:+ encodeURIComponent query)
  = api.searchPresets fetch encodeURIComponent query.
Proof. reflexivity. Qed.

(* ===================================================================== *)
(** * The further statements on the sample data *)
(* ===================================================================== *)

Lemma handlers_always_answer_witness :
  ∃ resp,
    answer (run sample_manager (post_config 0%nat {| req_body := broken_config |})
              sample_disk) = inr resp
    ∧ (status resp = 200 ∨ status resp = 400 ∨ status resp = 500).
Proof.
  apply (handlers_always_answer sample_manager 0%nat
           (POST, "/config", post_config 0%nat) {| req_body := broken_config |}
           sample_disk).
  do 2 apply list_elem_of_further. apply list_elem_of_here.
Defined.

Lemma get_routes_read_only_witness :
  let r := run sample_manager (get_config_path 0%nat {| req_body := JNull |})
             sample_disk in
  Forall (fun c => is_save c = false ∧ is_validate c = false) (called r)
  ∧ (length (called r) <= 2)%nat
  ∧ ∃ resp, answer r = inr resp ∧ (status resp = 200 ∨ status resp = 500).
Proof.
  apply (get_routes_read_only sample_manager 0%nat
           (GET, "/config/path", get_config_path 0%nat) {| req_body := JNull |}
           sample_disk).
  - do 4 apply list_elem_of_further. apply list_elem_of_here.
  - reflexivity.
Defined.

Lemma post_config_saves_only_valid_witness :
  SaveConfig 0%nat edited_config = SaveConfig 0%nat edited_config
  ∧ ∃ servers verdict,
      get_prop edited_config "mcpServers" = inr servers
      ∧ validateConfig sample_manager 0%nat (JObj [("mcpServers", servers)]) sample_disk
        = inr verdict
      ∧ valid verdict = true.
Proof.
  apply (post_config_saves_only_valid sample_manager 0%nat
           {| req_body := edited_config |} sample_disk (SaveConfig 0%nat edited_config)).
  - change (called (run sample_manager
                      (post_config 0%nat {| req_body := edited_config |}) sample_disk))
      with [ValidateConfig 0%nat (JObj [("mcpServers", sample_servers)]);
            SaveConfig 0%nat edited_config].
    apply list_elem_of_further, list_elem_of_here.
  - reflexivity.
Defined.

Lemma post_config_changes_only_by_saving_witness :
  world_after (run sample_manager (post_config 0%nat {| req_body := broken_config |})
                 sample_disk) = sample_disk.
Proof.
  apply (post_config_changes_only_by_saving sample_manager 0%nat
           {| req_body := broken_config |} sample_disk).
  change (called (run sample_manager
                    (post_config 0%nat {| req_body := broken_config |}) sample_disk))
    with [ValidateConfig 0%nat (JObj [("mcpServers", broken_servers)])].
  repeat constructor.
Defined.

Lemma post_config_validates_first_witness :
  ∃ servers rest,
    called (run sample_manager (post_config 0%nat {| req_body := JArr [] |}) sample_disk)
      = ValidateConfig 0%nat (JObj [("mcpServers", servers)]) :: rest
    ∧ servers = JUndefined.
Proof.
  apply (post_config_validates_first sample_manager 0%nat
           {| req_body := JArr [] |} sample_disk); discriminate.
Defined.

Lemma get_config_path_stops_at_first_error_witness :
  run lost (get_config_path 0%nat {| req_body := JNull |}) sample_disk =
    (inr (internal_error "Failed to get config path: " no_home), sample_disk,
     [(GetConfigPath 0%nat, Threw no_home)]).
Proof.
  apply (get_config_path_stops_at_first_error lost 0%nat {| req_body := JNull |}
           sample_disk sample_disk no_home).
  reflexivity.
Defined.

Lemma load_module_fails_witness :
  run unconstructible load_module sample_disk =
    (inl no_home, sample_disk, [(New, Threw no_home)]).
Proof.
  apply (load_module_fails unconstructible sample_disk sample_disk no_home).
  reflexivity.
Defined.

Lemma client_surfaces_route_errors_witness :
  ∃ msg,
    get_prop (body (internal_error "Failed to load config: " missing_file)) "message"
      = inr (JStr msg)
    ∧ handleResponse (deliver (internal_error "Failed to load config: " missing_file))
      = inl (Error msg).
Proof.
  apply (client_surfaces_route_errors sample_manager 0%nat
           (GET, "/config", get_config 0%nat) {| req_body := JNull |} empty_disk
           (internal_error "Failed to load config: " missing_file)).
  - apply list_elem_of_here.
  - reflexivity.
  - discriminate.
Defined.

Lemma client_receives_json_answer_witness :
  handleResponse (deliver (res_json sample_config)) = inr sample_config.
Proof.
  apply (client_receives_json_answer (res_json sample_config)).
  - cbn. lia.
  - reflexivity.
Defined.

Lemma api_methods_throw_on_error_witness :
  let fetch := fun _ : FetchRequest => @inr exn FetchResponse not_found_response in
  Forall (fun outcome => ∃ e, outcome = inl e)
    [ api.getConfig fetch; api.getFullConfig fetch;
      api.saveConfig fetch sample_config;
      api.getConfigPath fetch; api.getConfigInfo fetch; api.getPresets fetch;
      api.getPresetById fetch "files";
      api.searchPresets fetch (fun s => s) "files" ].
Proof.
  apply (api_methods_throw_on_error not_found_response (fun s => s)
           sample_config "files" "files").
  reflexivity.
Defined.

Lemma handleResponse_message_witness :
  handleResponse not_found_response = inl (Error "Preset not found").
Proof.
  destruct (handleResponse_message not_found_response
              (JObj [("message", JStr "Preset not found")])
              eq_refl eq_refl) as (m & Hm & _ & Htext & _);
    try discriminate.
  apply (Htext "Preset not found"); [| discriminate].
  by injection Hm as <-.
Defined.

Lemma handleResponse_not_json_witness : falls_back gateway_response.
Proof.
  apply (handleResponse_not_json gateway_response
           (SyntaxError "Unexpected token '<'")); reflexivity.
Defined.
